(** * parse_mmseqs2_clusters.py: a shallow embedding and its properties

    The script reads a two-column, tab-separated cluster table
    (representative, member), groups the members by representative, sorts
    the groups, and writes a numbered report.  This file embeds the script
    ([parse_mmseqs2_clusters] and [main]) as functions over an explicit
    world (the files, and the faults the operating system may inject), and
    proves what the report and the run summary contain.

    Text is [string]; a character stands for a code point below 256.
    The dictionary [clusters] is an association list in insertion order,
    as a Python dict iterates; [set(members)] is a [gset string]. *)

From Stdlib Require Import ZArith Sorted Ascii.
From stdpp Require Import base option list strings gmap pretty sorting.

Open Scope string_scope.
Open Scope list_scope.

(** ** The Python built-ins the script uses *)
Module Py.

Definition TAB : string := String "009"%char "".
Definition NL : string := String "010"%char "".

(** [str.isspace] on one character (code points below 256). *)
Definition is_space (c : ascii) : bool :=
  match c with
  | "009" | "010" | "011" | "012" | "013"
  | "028" | "029" | "030" | "031" | " " | "133" | "160" => true
  | _ => false
  end%char.

Fixpoint lstrip (s : string) : string :=
  match s with
  | "" => ""
  | String c s' => if is_space c then lstrip s' else s
  end.

Fixpoint rstrip (s : string) : string :=
  match s with
  | "" => ""
  | String c s' =>
      match rstrip s' with
      | "" => if is_space c then "" else String c ""
      | r => String c r
      end
  end.

(** [s.strip()] *)
Definition strip (s : string) : string := rstrip (lstrip s).

(** [s.split(sep)] for a one-character separator: empty fields are kept,
    and the result is never empty. *)
Fixpoint split (sep : ascii) (s : string) : list string :=
  match s with
  | "" => [""]
  | String c s' =>
      if decide (c = sep) then "" :: split sep s'
      else match split sep s' with
           | field :: fields => String c field :: fields
           | [] => [String c ""]
           end
  end.

(** [sep.join(l)] *)
Fixpoint join (sep : string) (l : list string) : string :=
  match l with
  | [] => ""
  | [x] => x
  | x :: l' => x +:+ sep +:+ join sep l'
  end.

(** [s[:n]] *)
Fixpoint take_chars (n : nat) (s : string) : string :=
  match n, s with
  | S n', String c s' => String c (take_chars n' s')
  | _, _ => ""
  end.

(** [str(n)] for a non-negative [int]. *)
Definition str (n : nat) : string := pretty n.

(** [sorted(l, key=key)]: a stable sort that compares keys with [<] only.
    An element goes in front of the first element that is not smaller
    than it, so equal keys keep their order. *)
Section sorted.
Context {A K : Type} (key : A → K) (lt : K → K → bool).

Fixpoint insert (x : A) (l : list A) : list A :=
  match l with
  | [] => [x]
  | y :: l' => if lt (key y) (key x) then y :: insert x l' else x :: l
  end.

Definition sorted (l : list A) : list A := foldr insert [] l.

(** [x] may stand before [y]: the key of [y] is not smaller. *)
Definition key_le (x y : A) : Prop := lt (key y) (key x) = false.
End sorted.

(** [<] on [str]: lexicographic by code point. *)
Definition str_lt : string → string → bool := String.ltb.

(** [<] on tuples [(int, str)]. *)
Definition tuple_lt (a b : Z * string) : bool :=
  (a.1 <? b.1)%Z || ((a.1 =? b.1)%Z && str_lt a.2 b.2).

(** [<=] on the same tuples. *)
Definition tuple_le (a b : Z * string) : Prop :=
  (a.1 < b.1)%Z ∨ (a.1 = b.1 ∧ String.le a.2 b.2).

(** The lines a text-mode file object yields (universal newlines: a
    carriage return, alone or before a line feed, ends the line as a line
    feed does); each line keeps its terminator. *)
Definition starts_with_LF (s : string) : bool :=
  match s with String "010"%char _ => true | _ => false end.

Definition cons_char (c : ascii) (ls : list string) : list string :=
  match ls with
  | [] => [String c ""]
  | l :: ls' => String c l :: ls'
  end.

Fixpoint file_lines (s : string) : list string :=
  match s with
  | "" => []
  | String c s' =>
      if decide (c = "010"%char) then NL :: file_lines s'
      else if decide (c = "013"%char) then
        if starts_with_LF s' then file_lines s' else NL :: file_lines s'
      else cons_char c (file_lines s')
  end.

End Py.
Import Py.

(** ** The world the script runs in *)

(** The files by path, and the faults the run meets: reading the input
    raises after [n] lines were yielded; opening the output raises; or
    writing the output fails.  The file object of line 61 is buffered, so
    a failure of the device is bound to no call: the exception shows in
    the call of [f.write] that comes after [n] calls returned (at the close
    when there are fewer calls), and of the text handed to the file object
    until then only the first [b] characters have reached the file, which
    can thus end anywhere.  Each fault carries the text of its exception. *)
Record world := World {
  files : gmap string string;
  read_fault : option (nat * string);
  open_fault : option string;
  write_fault : option (nat * nat * string)
}.

Inductive exit_status :=
| Exit0                      (* the script ran to its end *)
| SysExit (code : nat)       (* sys.exit(code) *)
| Traceback (e : string).    (* an exception nobody caught *)

Definition exit_code (s : exit_status) : nat :=
  match s with Exit0 => 0 | SysExit c => c | Traceback _ => 1 end.

Record result := Result {
  stdout : list string;            (* the lines printed, in order *)
  status : exit_status;
  files_after : gmap string string
}.

(** ** Reading: lines 27-53 *)

(** [clusters]: a [defaultdict(list)], in insertion order. *)
Definition dict := list (string * list string).

(** [clusters[k].append(m)] *)
Fixpoint dict_append (clusters : dict) (k m : string) : dict :=
  match clusters with
  | [] => [(k, [m])]
  | (k', ms) :: rest =>
      if decide (k' = k) then (k', ms ++ [m]) :: rest
      else (k', ms) :: dict_append rest k m
  end.

Definition warning (line : string) : string :=
  "Warning: Skipping malformed line: " +:+ line.

(** One turn of the loop over the lines; the state is the dictionary and
    what was printed so far.  [len(parts) < 2] is the second branch. *)
Definition read_line (st : dict * list string) (line : string)
  : dict * list string :=
  let line := strip line in
  if decide (line = "") then st
  else match split "009"%char line with
       | representative :: member :: _ =>
           (dict_append st.1 representative member, st.2)
       | _ => (st.1, st.2 ++ [warning line])
       end.

Definition read_lines (lines : list string) : dict * list string :=
  foldl read_line ([], []) lines.

Inductive read_exn :=
| FileNotFoundError
| OtherException (e : string).

(** The [try] block of lines 30-46: what was printed, and either the
    exception raised or the dictionary. *)
Definition read_tsv (w : world) (tsv_file : string)
  : list string * (read_exn + dict) :=
  match files w !! tsv_file with
  | None => ([], inl FileNotFoundError)
  | Some content =>
      match read_fault w with
      | Some (n, e) =>
          ((read_lines (take n (file_lines content))).2, inl (OtherException e))
      | None =>
          let st := read_lines (file_lines content) in (st.2, inr st.1)
      end
  end.

(** ** Sorting: lines 55-57 *)

Definition sort_key (x : string * list string) : Z * string :=
  (- Z.of_nat (length x.2), x.1)%Z.

Definition sort_clusters (clusters : dict) : dict :=
  sorted sort_key tuple_lt clusters.

(** ** Writing: lines 59-81 *)

(** The file object opened for writing: the text handed to it so far and
    the fault ahead. *)
Record wfile := WFile {
  written : string;
  fault : option (nat * nat * string)
}.

Inductive outcome (A : Type) :=
| Raise (e : string)
| Return (a : A).
Arguments Raise {A} e.
Arguments Return {A} a.

Definition IO (A : Type) : Type := wfile → wfile * outcome A.

Global Instance IO_ret : MRet IO := λ A a f, (f, Return a).

Global Instance IO_bind : MBind IO := λ A B k m f,
  match m f with
  | (f', Raise e) => (f', Raise e)
  | (f', Return a) => k a f'
  end.

(** [f.write(s)]: the text goes to the file object, which passes it on
    to the file when it sees fit; the call in which the fault shows
    raises. *)
Definition f_write (s : string) : IO unit := λ f,
  match fault f with
  | Some (0, b, e) => (WFile (written f +:+ s) (Some (0, b, e)), Raise e)
  | Some (S n, b, e) => (WFile (written f +:+ s) (Some (n, b, e)), Return ())
  | None => (WFile (written f +:+ s) None, Return ())
  end.

(** Leaving the [with] block closes the file: a fault still ahead shows. *)
Definition f_close : IO unit := λ f,
  match fault f with
  | Some (_, _, e) => (f, Raise e)
  | None => (f, Return ())
  end.

(** What the file holds when the file object is done with: all the text it
    was handed, or under a fault the first [b] characters of it. *)
Definition on_disk (f : wfile) : string :=
  match fault f with
  | Some (_, b, _) => take_chars b (written f)
  | None => written f
  end.

(** [sorted(set(members))] *)
Definition all_members_of (members : list string) : list string :=
  sorted id str_lt (elements (list_to_set members : gset string)).

(** [sum(len(members) for _, members in sorted_clusters)] *)
Definition total_sequences (sorted_clusters : dict) : nat :=
  sum_list ((λ x, length x.2) <$> sorted_clusters).

Definition cluster_line (cluster_num : nat) (representative : string)
    (members : list string) : string :=
  let all_members := all_members_of members in
  let size := length all_members in
  let members_str := join "," all_members in
  "Cluster_" +:+ str cluster_num +:+ TAB +:+ str size +:+ TAB +:+
  representative +:+ TAB +:+ members_str +:+ NL.

(** The loop of lines 71-77; [enumerate(sorted_clusters, 1)] is the counter. *)
Fixpoint write_clusters (cluster_num : nat) (sorted_clusters : dict) : IO unit :=
  match sorted_clusters with
  | [] => mret ()
  | (representative, members) :: rest =>
      f_write (cluster_line cluster_num representative members) ;;
      write_clusters (S cluster_num) rest
  end.

(** The six texts of the header, one per [f.write] of lines 63-68. *)
Definition header (sorted_clusters : dict) : list string :=
  [ "# MMseqs2 Clusters" +:+ NL;
    "# Total clusters: " +:+ str (length sorted_clusters) +:+ NL;
    "# Total sequences: " +:+ str (total_sequences sorted_clusters) +:+ NL;
    "#" +:+ NL;
    "# Format: Cluster_ID<TAB>Size<TAB>Representative<TAB>Members (comma-separated)" +:+ NL;
    "#" +:+ NL ].

(** Calls of [f.write] one after the other. *)
Fixpoint write_all (chunks : list string) : IO unit :=
  match chunks with
  | [] => mret ()
  | s :: rest => f_write s ;; write_all rest
  end.

(** The body of the [with] block, and its exit. *)
Definition write_report (sorted_clusters : dict) : IO unit :=
  write_all (header sorted_clusters) ;;
  write_clusters 1 sorted_clusters ;;
  f_close.

(** ** The summary: lines 83-87 *)

(** [len(sorted_clusters[0][1]) if sorted_clusters else 0]; the index is
    [None] where Python raises IndexError. *)
Definition largest_cluster_size (sorted_clusters : dict) : option nat :=
  if decide (sorted_clusters ≠ []) then
    first ← sorted_clusters !! 0; Some (length first.2)
  else Some 0.

Definition summary_head (sorted_clusters : dict) : list string :=
  [ "Successfully processed " +:+ str (length sorted_clusters) +:+ " clusters";
    "Total sequences: " +:+ str (total_sequences sorted_clusters) ].

Definition summary_tail (largest : nat) (output_file : string) : list string :=
  [ "Largest cluster size: " +:+ str largest;
    "Results written to: " +:+ output_file ].

(** ** [parse_mmseqs2_clusters] *)
Definition parse_mmseqs2_clusters (w : world) (tsv_file output_file : string)
  : result :=
  match read_tsv w tsv_file with
  | (out, inl FileNotFoundError) =>
      Result (out ++ ["Error: File '" +:+ tsv_file +:+ "' not found."])
             (SysExit 1) (files w)
  | (out, inl (OtherException e)) =>
      Result (out ++ ["Error reading file: " +:+ e]) (SysExit 1) (files w)
  | (out, inr clusters) =>
      let sorted_clusters := sort_clusters clusters in
      match open_fault w with
      | Some e =>
          Result (out ++ ["Error writing output file: " +:+ e])
                 (SysExit 1) (files w)
      | None =>
          match write_report sorted_clusters (WFile "" (write_fault w)) with
          | (f, Raise e) =>
              Result (out ++ ["Error writing output file: " +:+ e])
                     (SysExit 1) (<[output_file := on_disk f]> (files w))
          | (f, Return _) =>
              let fs := <[output_file := on_disk f]> (files w) in
              match largest_cluster_size sorted_clusters with
              | None =>
                  Result (out ++ summary_head sorted_clusters)
                         (Traceback "IndexError") fs
              | Some largest =>
                  Result (out ++ summary_head sorted_clusters
                              ++ summary_tail largest output_file)
                         Exit0 fs
              end
          end
      end
  end.

(** ** [main] *)

(** The parsed command line; [--min-size] defaults to 1. *)
Record args := Args {
  cluster_tsv : string;
  output_file : string;
  min_size : Z
}.

Definition default_min_size : Z := 1.

Definition note (min_size : Z) : list string :=
  if decide (min_size > 1)%Z
  then ["Note: Filtering clusters with size >= " +:+ pretty min_size]
  else [].

Definition main (w : world) (a : args) : result :=
  let r := parse_mmseqs2_clusters w (cluster_tsv a) (output_file a) in
  Result (note (min_size a) ++ stdout r) (status r) (files_after r).

(** The chunks the script hands to [f.write], in order. *)
Fixpoint cluster_lines (cluster_num : nat) (sorted_clusters : dict) : list string :=
  match sorted_clusters with
  | [] => []
  | (representative, members) :: rest =>
      cluster_line cluster_num representative members
        :: cluster_lines (S cluster_num) rest
  end.

Definition report_chunks (sorted_clusters : dict) : list string :=
  header sorted_clusters ++ cluster_lines 1 sorted_clusters.

Definition concat_str (chunks : list string) : string :=
  foldr String.app "" chunks.

(** One input row, as the upstream tool writes it. *)
Definition row (representative member : string) : string :=
  representative +:+ TAB +:+ member +:+ NL.

(** A world with one input file and no fault. *)
Definition calm (path content : string) : world :=
  World {[ path := content ]} None None None.

(** ** Notions the properties are stated with *)

(** Whether a character occurs in a text. *)
Fixpoint has_char (c : ascii) (s : string) : bool :=
  match s with
  | "" => false
  | String c' s' => bool_decide (c' = c) || has_char c s'
  end.

(** Whether [p] occurs in [s] as a piece of consecutive characters. *)
Fixpoint occurs (p s : string) : bool :=
  String.prefix p s ||
  match s with
  | "" => false
  | String _ s' => occurs p s'
  end.

(** The order of the report: a larger raw member list first, and among
    equal lengths the smaller representative first. *)
Definition before (x y : string * list string) : Prop :=
  length y.2 < length x.2 ∨ (length x.2 = length y.2 ∧ String.le x.1 y.1).

(** The raw length of the first member list, 0 when there is none. *)
Definition first_raw_size (sorted_clusters : dict) : nat :=
  match sorted_clusters with
  | [] => 0
  | (_, members) :: _ => length members
  end.

(** [clusters.get(k)]: the member list kept for a representative. *)
Fixpoint dict_get (clusters : dict) (k : string) : option (list string) :=
  match clusters with
  | [] => None
  | (k', ms) :: rest => if decide (k' = k) then Some ms else dict_get rest k
  end.

(** The record a line gives: the lines that reach line 46, with the two
    fields of lines 42-43. *)
Definition record_of (line : string) : option (string * string) :=
  let line := strip line in
  if decide (line = "") then None
  else match split "009"%char line with
       | representative :: member :: _ => Some (representative, member)
       | _ => None
       end.

Definition records (lines : list string) : list (string * string) :=
  omap record_of lines.

(** The lines the loop warns about: the test of line 38, past line 34. *)
Definition is_malformed (line : string) : bool :=
  bool_decide (strip line ≠ "")
  && bool_decide (length (split "009"%char (strip line)) < 2).

(** The members the records give to a representative, in their order. *)
Definition members_of (k : string) (rs : list (string * string)) : list string :=
  (filter (λ r, r.1 = k) rs).*2.

(** What the report and the summary use of a cluster: its representative,
    its raw length and its distinct members in order. *)
Definition shown (x : string * list string) : string * nat * list string :=
  (x.1, length x.2, all_members_of x.2).

Definition shown_before (a b : string * nat * list string) : Prop :=
  b.1.2 < a.1.2 ∨ (a.1.2 = b.1.2 ∧ String.le a.1.1 b.1.1).

(** ** Facts about the built-ins *)

Section sorted_facts.
Context {A K : Type} (key : A → K) (lt : K → K → bool).
Hypothesis lt_asym : ∀ a b, lt a b = true → lt b a = false.
Hypothesis ge_trans :
  ∀ a b c, lt b a = false → lt c b = false → lt c a = false.

Lemma insert_perm x l : insert key lt x l ≡ₚ x :: l.
Proof.
  induction l as [|y l IH]; simpl; [done|].
  destruct (lt (key y) (key x)); [|done].
  rewrite IH. apply Permutation_swap.
Qed.

Lemma sorted_perm l : sorted key lt l ≡ₚ l.
Proof.
  induction l as [|x l IH]; simpl; [done|].
  unfold sorted in IH. by rewrite insert_perm, IH.
Qed.

Lemma insert_sorted x l :
  StronglySorted (key_le key lt) l →
  StronglySorted (key_le key lt) (insert key lt x l).
Proof.
  induction 1 as [|y l Hs IH Hy]; simpl.
  - repeat constructor.
  - destruct (lt (key y) (key x)) eqn:Hyx.
    + constructor; [done|].
      rewrite insert_perm. constructor; [|done].
      unfold key_le. by apply lt_asym.
    + constructor; [by constructor|].
      constructor; [done|].
      eapply Forall_impl; [exact Hy|].
      intros z Hz. unfold key_le in *. by eapply ge_trans.
Qed.

Lemma sorted_sorted l : StronglySorted (key_le key lt) (sorted key lt l).
Proof.
  induction l as [|x l IH]; simpl; [constructor|].
  by apply insert_sorted.
Qed.
End sorted_facts.

Lemma str_lt_leb a b : str_lt b a = negb (String.leb a b).
Proof.
  unfold str_lt, String.ltb, String.leb.
  rewrite (String.compare_antisym a b).
  by destruct (String.compare b a).
Qed.

Lemma str_lt_false a b : str_lt b a = false ↔ String.le a b.
Proof.
  rewrite str_lt_leb. unfold String.le.
  destruct (String.leb a b); naive_solver.
Qed.

Lemma str_lt_asym a b : str_lt a b = true → str_lt b a = false.
Proof.
  unfold str_lt, String.ltb. rewrite (String.compare_antisym b a).
  by destruct (String.compare a b).
Qed.

Lemma str_ge_trans a b c :
  str_lt b a = false → str_lt c b = false → str_lt c a = false.
Proof. rewrite !str_lt_false. intros. by etrans. Qed.

Lemma str_le_lt a b : String.le a b → a ≠ b → str_lt a b = true.
Proof.
  intros Hab Hne. destruct (str_lt a b) eqn:Hlt; [done|].
  apply str_lt_false in Hlt. destruct Hne. by apply (anti_symm String.le).
Qed.

Lemma tuple_lt_false a b : tuple_lt b a = false ↔ tuple_le a b.
Proof.
  unfold tuple_lt, tuple_le.
  rewrite orb_false_iff, andb_false_iff, Z.ltb_ge, Z.eqb_neq, str_lt_false.
  split.
  - intros [Hle [Hne|Hs]]; [left; lia|].
    destruct (decide (a.1 = b.1)); [by right|left; lia].
  - intros [Hlt|[Heq Hs]]; [split; [lia|left; lia]|split; [lia|by right]].
Qed.

Lemma tuple_lt_asym a b : tuple_lt a b = true → tuple_lt b a = false.
Proof.
  unfold tuple_lt. rewrite orb_true_iff, andb_true_iff, Z.ltb_lt, Z.eqb_eq.
  rewrite orb_false_iff, andb_false_iff, Z.ltb_ge, Z.eqb_neq.
  intros [Hlt|[Heq Hs]]; [split; [lia|left; lia]|].
  split; [lia|right]. by apply str_lt_asym.
Qed.

Lemma tuple_ge_trans a b c :
  tuple_lt b a = false → tuple_lt c b = false → tuple_lt c a = false.
Proof.
  rewrite !tuple_lt_false. unfold tuple_le.
  intros [?|[? ?]] [?|[? ?]]; [left; lia..|].
  right. split; [congruence|by etrans].
Qed.

(** *** Text *)

Lemma app_cons c s t : String c s +:+ t = String c (s +:+ t).
Proof. done. Qed.

Lemma app_empty_r s : s +:+ "" = s.
Proof. induction s as [|c s IH]; [done|]. by rewrite app_cons, IH. Qed.

Lemma app_assoc_str a b c : (a +:+ b) +:+ c = a +:+ b +:+ c.
Proof. induction a as [|x a IH]; [done|]. by rewrite !app_cons, IH. Qed.


Lemma prefix_app p s : String.prefix p (p +:+ s) = true.
Proof.
  induction p as [|c p IH]; [by destruct s|].
  rewrite app_cons. simpl. by destruct (ascii_dec c c).
Qed.

Lemma occurs_prefix p s : String.prefix p s = true → occurs p s = true.
Proof. destruct s; simpl; by intros ->. Qed.

Lemma occurs_app pre p post : occurs p (pre +:+ p +:+ post) = true.
Proof.
  induction pre as [|c pre IH].
  - change ("" +:+ p +:+ post) with (p +:+ post).
    apply occurs_prefix, prefix_app.
  - rewrite app_cons. simpl. rewrite IH. apply orb_true_r.
Qed.

(** *** [strip] and [split] *)

Lemma lstrip_blank_rstrip s : lstrip s = "" → rstrip s = "".
Proof.
  induction s as [|c s IH]; simpl; [done|].
  destruct (is_space c); [|done]. intros H. by rewrite (IH H).
Qed.

Lemma rstrip_app_blank s t : lstrip t = "" → rstrip (s +:+ t) = rstrip s.
Proof.
  intros Ht. induction s as [|c s IH].
  - by apply lstrip_blank_rstrip.
  - rewrite app_cons. simpl. by rewrite IH.
Qed.

Lemma strip_app_blank s t : lstrip t = "" → strip (s +:+ t) = strip s.
Proof.
  intros Ht. unfold strip. induction s as [|c s IH].
  - simpl. change ("" +:+ t) with t. by rewrite Ht.
  - rewrite app_cons. simpl. destruct (is_space c); [done|].
    rewrite <-app_cons. by apply rstrip_app_blank.
Qed.

Lemma lstrip_app_blank a s : lstrip a = "" → lstrip (a +:+ s) = lstrip s.
Proof.
  induction a as [|c a IH]; [done|].
  rewrite app_cons. simpl. destruct (is_space c); [exact IH|done].
Qed.

Lemma strip_pad a s b :
  lstrip a = "" → lstrip b = "" → strip (a +:+ s +:+ b) = strip s.
Proof.
  intros Ha Hb. rewrite <-(strip_app_blank s b Hb).
  unfold strip. by rewrite lstrip_app_blank.
Qed.




Lemma split_no_sep sep s : has_char sep s = false → split sep s = [s].
Proof.
  induction s as [|c s IH]; simpl; [done|].
  rewrite orb_false_iff. intros [Hc Hs].
  apply bool_decide_eq_false in Hc.
  destruct (decide (c = sep)); [done|]. by rewrite (IH Hs).
Qed.



Lemma lstrip_head s c r : lstrip s = String c r → is_space c = false.
Proof.
  induction s as [|c' s IH]; simpl; [done|].
  destruct (is_space c') eqn:E; [done|]. by intros [= <- _].
Qed.

Lemma rstrip_head s c r : rstrip s = String c r → ∃ r', s = String c r'.
Proof.
  destruct s as [|c' s]; simpl; [done|].
  destruct (rstrip s); [destruct (is_space c')|]; intros [= <- _]; eauto.
Qed.

Lemma strip_head s c r : strip s = String c r → is_space c = false.
Proof.
  unfold strip. intros H.
  destruct (rstrip_head _ _ _ H) as [r' Hr']. by eapply lstrip_head.
Qed.

Lemma split_head sep c s :
  c ≠ sep → ∃ f fs, split sep (String c s) = String c f :: fs.
Proof.
  intros Hne. simpl. destruct (decide (c = sep)); [done|].
  destruct (split sep s); eauto.
Qed.

(** *** [sorted(set(members))] *)

Lemma all_members_perm members :
  all_members_of members ≡ₚ elements (list_to_set members : gset string).
Proof. apply sorted_perm. Qed.

Lemma all_members_elem members m : m ∈ all_members_of members ↔ m ∈ members.
Proof. rewrite all_members_perm. set_solver. Qed.

Lemma all_members_NoDup members : NoDup (all_members_of members).
Proof. rewrite all_members_perm. apply NoDup_elements. Qed.

Lemma all_members_le members : StronglySorted String.le (all_members_of members).
Proof.
  pose proof (sorted_sorted id str_lt str_lt_asym str_ge_trans
                (elements (list_to_set members : gset string))) as H.
  eapply StronglySorted_ind with (P := StronglySorted String.le) in H;
    [exact H|constructor|].
  intros a l _ Hl Ha. constructor; [done|].
  eapply Forall_impl; [exact Ha|]. intros b. apply str_lt_false.
Qed.

(** Ascending with no two equal: strictly ascending. *)
Lemma sorted_NoDup_strict (l : list string) :
  StronglySorted String.le l → NoDup l →
  StronglySorted (λ a b, str_lt a b = true) l.
Proof.
  induction 1 as [|a l Hs IH Ha]; intros Hnd; [constructor|].
  apply NoDup_cons in Hnd as [Hnotin Hnd].
  constructor; [by apply IH|].
  apply Forall_forall. intros b Hb.
  apply str_le_lt; [by eapply Forall_forall in Ha|].
  intros ->. done.
Qed.

Lemma all_members_lt members :
  StronglySorted (λ a b, str_lt a b = true) (all_members_of members).
Proof.
  apply sorted_NoDup_strict; [apply all_members_le|apply all_members_NoDup].
Qed.

Lemma all_members_length members :
  length (all_members_of members) = length (remove_dups members).
Proof.
  apply Permutation_length, NoDup_Permutation.
  - apply all_members_NoDup.
  - apply NoDup_remove_dups.
  - intros m. by rewrite all_members_elem, elem_of_remove_dups.
Qed.

Lemma all_members_length_le members :
  (length (all_members_of members) ≤ length members)%nat.
Proof.
  apply submseteq_length, NoDup_submseteq; [apply all_members_NoDup|].
  intros m. by rewrite all_members_elem.
Qed.

Lemma all_members_length_NoDup members :
  NoDup members → length (all_members_of members) = length members.
Proof.
  intros H. rewrite all_members_perm.
  by rewrite (elements_list_to_set (C := gset string) members H).
Qed.

(** *** The sorted clusters *)

Lemma sort_clusters_perm clusters : sort_clusters clusters ≡ₚ clusters.
Proof. apply sorted_perm. Qed.

Lemma sort_clusters_sorted clusters :
  StronglySorted before (sort_clusters clusters).
Proof.
  pose proof (sorted_sorted sort_key tuple_lt tuple_lt_asym tuple_ge_trans
                clusters) as H.
  eapply StronglySorted_ind with (P := StronglySorted before) in H;
    [exact H|constructor|].
  intros a l _ Hl Ha. constructor; [done|].
  eapply Forall_impl; [exact Ha|]. intros b Hb.
  apply tuple_lt_false in Hb. unfold tuple_le, sort_key, before in *.
  simpl in Hb. destruct Hb as [Hlt|[Heq Hle]]; [left; lia|right].
  split; [lia|done].
Qed.

(** *** The reading loop *)

Lemma read_line_blank st line : strip line = "" → read_line st line = st.
Proof. intros H. unfold read_line. rewrite H. by rewrite decide_True. Qed.


Lemma read_line_record st line representative member fields :
  strip line ≠ "" →
  split "009" (strip line) = representative :: member :: fields →
  read_line st line = (dict_append st.1 representative member, st.2).
Proof.
  intros Hne Hs. unfold read_line. rewrite decide_False by done. by rewrite Hs.
Qed.



(** *** The writer *)

Lemma write_all_app a b f :
  write_all (a ++ b) f = (write_all a ;; write_all b) f.
Proof.
  revert f. induction a as [|x a IH]; intros f; simpl; [done|].
  unfold mbind, IO_bind in *.
  destruct (f_write x f) as [f1 [e|[]]]; [done|]. apply IH.
Qed.

Lemma write_clusters_all n l f :
  write_clusters n l f = write_all (cluster_lines n l) f.
Proof.
  revert n f. induction l as [|[r ms] l IH]; intros n f; simpl; [done|].
  unfold mbind, IO_bind.
  destruct (f_write _ f) as [f1 [e|[]]]; [done|]. apply IH.
Qed.

Lemma write_all_calm chunks s :
  write_all chunks (WFile s None) =
  (WFile (s +:+ concat_str chunks) None, Return ()).
Proof.
  revert s. induction chunks as [|x chunks IH]; intros s; simpl.
  - by rewrite app_empty_r.
  - unfold mbind, IO_bind, f_write. simpl. by rewrite IH, app_assoc_str.
Qed.



Lemma write_report_eq s f :
  write_report s f =
  match write_all (report_chunks s) f with
  | (f', Raise e) => (f', Raise e)
  | (f', Return _) => f_close f'
  end.
Proof.
  unfold write_report, report_chunks. rewrite write_all_app.
  unfold mbind, IO_bind.
  destruct (write_all (header s) f) as [f1 [e|[]]]; [done|].
  rewrite write_clusters_all.
  by destruct (write_all (cluster_lines 1 s) f1) as [f2 [e|[]]].
Qed.

Lemma write_report_calm s :
  write_report s (WFile "" None) =
  (WFile (concat_str (report_chunks s)) None, Return ()).
Proof. rewrite write_report_eq, write_all_calm. done. Qed.



(** *** The whole run *)

(** The guard of line 86 keeps the index from an empty list. *)
Lemma largest_cluster_size_total sorted_clusters :
  largest_cluster_size sorted_clusters = Some (first_raw_size sorted_clusters).
Proof. by destruct sorted_clusters as [|[r ms] l]. Qed.

(** The run when nothing fails. *)
Lemma parse_calm w tsv_file output_file content :
  files w !! tsv_file = Some content →
  read_fault w = None → open_fault w = None → write_fault w = None →
  let st := read_lines (file_lines content) in
  let sorted_clusters := sort_clusters st.1 in
  parse_mmseqs2_clusters w tsv_file output_file =
  Result (st.2 ++ summary_head sorted_clusters
               ++ summary_tail (first_raw_size sorted_clusters) output_file)
         Exit0
         (<[output_file := concat_str (report_chunks sorted_clusters)]> (files w)).
Proof.
  intros Hin Hr Ho Hw. simpl.
  unfold parse_mmseqs2_clusters, read_tsv. rewrite Hin, Hr, Ho, Hw.
  rewrite write_report_calm. simpl.
  by rewrite largest_cluster_size_total.
Qed.


Lemma cluster_lines_lookup n sorted_clusters i line :
  cluster_lines n sorted_clusters !! i = Some line →
  ∃ representative members,
    sorted_clusters !! i = Some (representative, members)
    ∧ line = cluster_line (n + i) representative members.
Proof.
  revert n i. induction sorted_clusters as [|[r ms] l IH]; intros n i; [done|].
  destruct i as [|i]; simpl.
  - intros [= <-]. exists r, ms. by rewrite Nat.add_0_r.
  - intros H. destruct (IH _ _ H) as (r' & ms' & Hl & ->).
    exists r', ms'. split; [done|]. f_equal. lia.
Qed.

(** The sizes on the cluster lines never add up to more than the header
    total, and to as much when no member is listed twice in a group. *)
Lemma reported_sizes_le_total sorted_clusters :
  (sum_list ((λ x, length (all_members_of x.2)) <$> sorted_clusters)
   ≤ total_sequences sorted_clusters)%nat.
Proof.
  unfold total_sequences.
  induction sorted_clusters as [|[r ms] l IH]; csimpl; [done|].
  pose proof (all_members_length_le ms). lia.
Qed.

Lemma reported_sizes_eq_total sorted_clusters :
  Forall (λ x, NoDup x.2) sorted_clusters →
  sum_list ((λ x, length (all_members_of x.2)) <$> sorted_clusters)
  = total_sequences sorted_clusters.
Proof.
  unfold total_sequences.
  induction 1 as [|[r ms] l Hnd _ IH]; csimpl; [done|].
  simpl in Hnd. by rewrite (all_members_length_NoDup ms Hnd), IH.
Qed.

(** The scenario of the specification: [A<TAB>A], [A<TAB>B], [C<TAB>C]. *)
Example report_of_three_rows :
  let r := parse_mmseqs2_clusters
             (calm "clusters.tsv" (row "A" "A" +:+ row "A" "B" +:+ row "C" "C"))
             "clusters.tsv" "report.txt" in
  stdout r = [ "Successfully processed 2 clusters"; "Total sequences: 3";
               "Largest cluster size: 2"; "Results written to: report.txt" ]
  ∧ status r = Exit0
  ∧ files_after r !! "report.txt" = Some (concat_str
      [ "# MMseqs2 Clusters" +:+ NL;
        "# Total clusters: 2" +:+ NL;
        "# Total sequences: 3" +:+ NL;
        "#" +:+ NL;
        "# Format: Cluster_ID<TAB>Size<TAB>Representative<TAB>Members (comma-separated)" +:+ NL;
        "#" +:+ NL;
        "Cluster_1" +:+ TAB +:+ "2" +:+ TAB +:+ "A" +:+ TAB +:+ "A,B" +:+ NL;
        "Cluster_2" +:+ TAB +:+ "1" +:+ TAB +:+ "C" +:+ TAB +:+ "C" +:+ NL ]).
Proof. repeat split; vm_compute; reflexivity. Qed.

(** ** The claims *)

(** C1 (the header total against the sizes on the cluster lines), at the
    input [A<TAB>x], [A<TAB>x]: the header says "Total sequences: 2" while
    the only cluster line reports size 1.  The header counts every record;
    the cluster lines count distinct members. *)
Theorem C1_header_total_counts_repeated_members :
  let r := parse_mmseqs2_clusters
             (calm "clusters.tsv" (row "A" "x" +:+ row "A" "x"))
             "clusters.tsv" "report.txt" in
  status r = Exit0
  ∧ files_after r !! "report.txt" = Some (concat_str
      [ "# MMseqs2 Clusters" +:+ NL;
        "# Total clusters: 1" +:+ NL;
        "# Total sequences: 2" +:+ NL;
        "#" +:+ NL;
        "# Format: Cluster_ID<TAB>Size<TAB>Representative<TAB>Members (comma-separated)" +:+ NL;
        "#" +:+ NL;
        "Cluster_1" +:+ TAB +:+ "1" +:+ TAB +:+ "A" +:+ TAB +:+ "x" +:+ NL ]).
Proof. split; vm_compute; reflexivity. Qed.

(** C2 (the order of the cluster lines), at the input [A<TAB>x] three
    times, then [B<TAB>y], [B<TAB>z]: group A has three records and one
    distinct member, group B two of each.  The report lists A, of size 1,
    before B, of size 2: the lines follow the raw record counts, not the
    sizes printed on them. *)
Theorem C2_lines_follow_raw_counts :
  let r := parse_mmseqs2_clusters
             (calm "clusters.tsv"
                (row "A" "x" +:+ row "A" "x" +:+ row "A" "x" +:+
                 row "B" "y" +:+ row "B" "z"))
             "clusters.tsv" "report.txt" in
  status r = Exit0
  ∧ files_after r !! "report.txt" = Some (concat_str
      [ "# MMseqs2 Clusters" +:+ NL;
        "# Total clusters: 2" +:+ NL;
        "# Total sequences: 5" +:+ NL;
        "#" +:+ NL;
        "# Format: Cluster_ID<TAB>Size<TAB>Representative<TAB>Members (comma-separated)" +:+ NL;
        "#" +:+ NL;
        "Cluster_1" +:+ TAB +:+ "1" +:+ TAB +:+ "A" +:+ TAB +:+ "x" +:+ NL;
        "Cluster_2" +:+ TAB +:+ "2" +:+ TAB +:+ "B" +:+ TAB +:+ "y,z" +:+ NL ]).
Proof. split; vm_compute; reflexivity. Qed.

(** C3: in a run that meets no fault, the clusters are put in the order of
    line 57 (all of them, a longer raw member list first, and among equal
    lengths the smaller representative first), and the summary line
    "Largest cluster size" carries the raw length of the member list of the
    first group in that order (0 when there is no group).  That figure can
    differ from the size the report gives for the same cluster: for the
    input [B<TAB>y], [A<TAB>x], [A<TAB>x] the sort puts A first, the summary
    says 2 and the line of Cluster_1, which is A, says 1. *)
Theorem C3_largest_is_raw_count_of_first w tsv_file output_file content :
  files w !! tsv_file = Some content →
  read_fault w = None → open_fault w = None → write_fault w = None →
  let st := read_lines (file_lines content) in
  let sorted_clusters := sort_clusters st.1 in
  let r := parse_mmseqs2_clusters w tsv_file output_file in
  sorted_clusters ≡ₚ st.1
  ∧ StronglySorted
      (λ x y, length y.2 < length x.2
              ∨ (length x.2 = length y.2 ∧ String.le x.1 y.1))
      sorted_clusters
  ∧ stdout r !! (length st.2 + 2)
    = Some ("Largest cluster size: " +:+ str
              match sorted_clusters with
              | [] => 0
              | (_, members) :: _ => length members
              end)
  ∧ let r' := parse_mmseqs2_clusters
                (calm "clusters.tsv" (row "B" "y" +:+ row "A" "x" +:+ row "A" "x"))
                "clusters.tsv" "report.txt" in
    stdout r' !! 2 = Some "Largest cluster size: 2"
    ∧ files_after r' !! "report.txt" = Some (concat_str
        [ "# MMseqs2 Clusters" +:+ NL;
          "# Total clusters: 2" +:+ NL;
          "# Total sequences: 3" +:+ NL;
          "#" +:+ NL;
          "# Format: Cluster_ID<TAB>Size<TAB>Representative<TAB>Members (comma-separated)" +:+ NL;
          "#" +:+ NL;
          "Cluster_1" +:+ TAB +:+ "1" +:+ TAB +:+ "A" +:+ TAB +:+ "x" +:+ NL;
          "Cluster_2" +:+ TAB +:+ "1" +:+ TAB +:+ "B" +:+ TAB +:+ "y" +:+ NL ]).
Proof.
  intros Hin Hr Ho Hw st sorted_clusters r.
  split; [apply sort_clusters_perm|]. split; [apply sort_clusters_sorted|].
  split.
  - subst st sorted_clusters r.
    rewrite (parse_calm _ _ _ _ Hin Hr Ho Hw). simpl.
    rewrite lookup_app_r by lia. by rewrite Nat.add_comm, Nat.add_sub.
  - split; vm_compute; reflexivity.
Qed.

Lemma C3_witness :
  stdout (parse_mmseqs2_clusters
            (calm "clusters.tsv" (row "A" "x" +:+ row "B" "y" +:+ row "B" "z"))
            "clusters.tsv" "report.txt") !! 2
  = Some "Largest cluster size: 2".
Proof.
  refine (proj1 (proj2 (proj2 (C3_largest_is_raw_count_of_first
            (calm "clusters.tsv" (row "A" "x" +:+ row "B" "y" +:+ row "B" "z"))
            "clusters.tsv" "report.txt"
            (row "A" "x" +:+ row "B" "y" +:+ row "B" "z") _ _ _ _))));
    reflexivity.
Defined.

(** C7: in a run that meets no fault the output file holds the header and
    then one line per sorted cluster, and every such line (the [i]-th
    after the header) is built from a member list that holds each member
    of the group once, in strictly ascending lexicographic order; the size
    on the line is the length of that list: the number of distinct members,
    never more than the raw count. *)
Theorem C7_cluster_line_members_distinct_sorted w tsv_file path content :
  files w !! tsv_file = Some content →
  read_fault w = None → open_fault w = None → write_fault w = None →
  let sorted_clusters := sort_clusters (read_lines (file_lines content)).1 in
  let r := parse_mmseqs2_clusters w tsv_file path in
  files_after r !! path
  = Some (concat_str (header sorted_clusters ++ cluster_lines 1 sorted_clusters))
  ∧ ∀ i line,
      cluster_lines 1 sorted_clusters !! i = Some line →
      ∃ representative members all_members,
        sorted_clusters !! i = Some (representative, members)
        ∧ line = "Cluster_" +:+ str (S i) +:+ TAB +:+ str (length all_members)
                 +:+ TAB +:+ representative +:+ TAB
                 +:+ join "," all_members +:+ NL
        ∧ NoDup all_members
        ∧ StronglySorted (λ a b, str_lt a b = true) all_members
        ∧ (∀ m, m ∈ all_members ↔ m ∈ members)
        ∧ length all_members = length (remove_dups members)
        ∧ (length all_members ≤ length members)%nat.
Proof.
  intros Hin Hr Ho Hw sorted_clusters r. subst r. split.
  - rewrite (parse_calm _ _ _ _ Hin Hr Ho Hw). simpl.
    by rewrite lookup_insert_eq.
  - intros i line H. apply cluster_lines_lookup in H as (rep & ms & Hl & ->).
    exists rep, ms, (all_members_of ms). split; [done|]. split; [done|].
    split; [apply all_members_NoDup|]. split; [apply all_members_lt|].
    split; [intros m; apply all_members_elem|].
    split; [apply all_members_length|apply all_members_length_le].
Qed.

Lemma C7_witness :
  let content := row "A" "B" +:+ row "A" "A" +:+ row "A" "B" in
  let sorted_clusters := sort_clusters (read_lines (file_lines content)).1 in
  let r := parse_mmseqs2_clusters (calm "clusters.tsv" content)
             "clusters.tsv" "report.txt" in
  sorted_clusters = [("A", ["B"; "A"; "B"])]
  ∧ cluster_lines 1 sorted_clusters
    = ["Cluster_1" +:+ TAB +:+ "2" +:+ TAB +:+ "A" +:+ TAB +:+ "A,B" +:+ NL]
  ∧ files_after r !! "report.txt"
    = Some (concat_str (header sorted_clusters ++ cluster_lines 1 sorted_clusters)).
Proof.
  split; [reflexivity|]. split; [reflexivity|].
  exact (proj1 (C7_cluster_line_members_distinct_sorted
           (calm "clusters.tsv" (row "A" "B" +:+ row "A" "A" +:+ row "A" "B"))
           "clusters.tsv" "report.txt"
           (row "A" "B" +:+ row "A" "A" +:+ row "A" "B")
           eq_refl eq_refl eq_refl eq_refl)).
Defined.

(** C8: whatever [--min-size N] is given, [main] leaves the same files,
    ends with the same status and prints the same lines (so the same
    cluster and sequence counts) as without the option, apart from the one
    note it prints first when [N > 1]: nothing is filtered. *)
Theorem C8_min_size_filters_nothing w tsv_file path N :
  let with_option := main w (Args tsv_file path N) in
  let without := main w (Args tsv_file path default_min_size) in
  files_after with_option = files_after without
  ∧ status with_option = status without
  ∧ stdout with_option = note N ++ stdout without
  ∧ stdout without = stdout (parse_mmseqs2_clusters w tsv_file path).
Proof. done. Qed.

(** C10: when the input yields no cluster and nothing fails, the guard of
    the "Largest cluster size" line keeps the index from the empty list
    (the expression is 0, not an IndexError), the summary reports 0, and
    the run ends with exit code 0. *)
Theorem C10_no_cluster_run_completes w tsv_file path N content :
  files w !! tsv_file = Some content →
  read_fault w = None → open_fault w = None → write_fault w = None →
  (read_lines (file_lines content)).1 = [] →
  let r := main w (Args tsv_file path N) in
  largest_cluster_size (sort_clusters (read_lines (file_lines content)).1)
  = Some 0
  ∧ status r = Exit0
  ∧ exit_code (status r) = 0
  ∧ stdout r = note N ++ (read_lines (file_lines content)).2 ++
      [ "Successfully processed 0 clusters";
        "Total sequences: 0";
        "Largest cluster size: 0";
        "Results written to: " +:+ path ].
Proof.
  intros Hin Hr Ho Hw Hempty r. subst r. unfold main. simpl.
  rewrite (parse_calm _ _ _ _ Hin Hr Ho Hw). simpl.
  rewrite Hempty. done.
Qed.

Lemma C10_witness :
  let r := main (calm "clusters.tsv" "") (Args "clusters.tsv" "report.txt" 1) in
  largest_cluster_size (sort_clusters (read_lines (file_lines "")).1) = Some 0
  ∧ status r = Exit0
  ∧ exit_code (status r) = 0
  ∧ stdout r = note 1 ++ (read_lines (file_lines "")).2 ++
      [ "Successfully processed 0 clusters";
        "Total sequences: 0";
        "Largest cluster size: 0";
        "Results written to: " +:+ "report.txt" ].
Proof.
  apply (C10_no_cluster_run_completes (calm "clusters.tsv" "")
           "clusters.tsv" "report.txt" 1 ""); reflexivity.
Defined.

(** *** More on the reading loop *)



Lemma record_representative_nonempty line representative member fields :
  strip line ≠ "" →
  split "009" (strip line) = representative :: member :: fields →
  representative ≠ "".
Proof.
  intros Hne Hs. destruct (strip line) as [|c r] eqn:E; [done|].
  apply strip_head in E.
  destruct (split_head "009" c r) as (f & fs & Hh); [by intros ->|].
  rewrite Hh in Hs. by injection Hs as <- _.
Qed.




(** When the output cannot be opened, the file stays as it was. *)
Lemma parse_open_fault w tsv_file path content e :
  files w !! tsv_file = Some content → read_fault w = None →
  open_fault w = Some e →
  parse_mmseqs2_clusters w tsv_file path =
  Result ((read_lines (file_lines content)).2 ++
            ["Error writing output file: " +:+ e])
         (SysExit 1) (files w).
Proof.
  intros Hin Hr Ho. unfold parse_mmseqs2_clusters, read_tsv.
  by rewrite Hin, Hr, Ho.
Qed.






(** C6, as stated, fails in "naming the path".  The input exists and
    reading it raises an input/output error before any line is yielded.
    The run exits with status 1 and leaves the files alone, but the only
    line it prints is the text of the exception, in which the path
    "clusters.tsv" does not occur. *)
Lemma C6_counterexample :
  let w := World {[ "clusters.tsv" := row "A" "A" ]}
                 (Some (0, "[Errno 5] Input/output error")) None None in
  let r := parse_mmseqs2_clusters w "clusters.tsv" "report.txt" in
  status r = SysExit 1
  ∧ files_after r = files w
  ∧ stdout r = ["Error reading file: [Errno 5] Input/output error"]
  ∧ Forall (λ line, occurs "clusters.tsv" line = false) (stdout r).
Proof.
  split; [reflexivity|]. split; [reflexivity|]. split; [reflexivity|].
  repeat constructor.
Qed.

(** C6, amended: when the input path does not exist, or reading it raises,
    the run exits with status 1 and the files, the output file among them,
    are as before.  For a missing path the one line printed is
    "Error: File '<path>' not found.", which names the path; for any other
    failure the last line printed is "Error reading file: " followed by the
    text of the exception, whatever that text names. *)
Theorem C6_unreadable_input_stops_before_output w tsv_file path :
  files w !! tsv_file = None ∨ is_Some (read_fault w) →
  let r := parse_mmseqs2_clusters w tsv_file path in
  status r = SysExit 1
  ∧ exit_code (status r) = 1
  ∧ files_after r = files w
  ∧ files_after r !! path = files w !! path
  ∧ (files w !! tsv_file = None →
     stdout r = ["Error: File '" +:+ tsv_file +:+ "' not found."]
     ∧ Forall (λ line, occurs tsv_file line = true) (stdout r))
  ∧ (∀ content n e,
       files w !! tsv_file = Some content → read_fault w = Some (n, e) →
       stdout r = (read_lines (take n (file_lines content))).2
                  ++ ["Error reading file: " +:+ e]).
Proof.
  intros Hbad r. subst r. unfold parse_mmseqs2_clusters, read_tsv.
  destruct (files w !! tsv_file) as [content|] eqn:Hin.
  - destruct Hbad as [|[[n e] Hr]]; [done|]. rewrite Hr. simpl.
    do 4 (split; [done|]). split; [done|].
    by intros ??? [= ->] [= -> ->].
  - simpl. do 4 (split; [done|]). split; [|done].
    intros _. split; [done|].
    constructor; [|constructor]. apply occurs_app.
Qed.

Lemma C6_witness :
  let r := parse_mmseqs2_clusters (calm "other.tsv" (row "A" "A"))
             "clusters.tsv" "report.txt" in
  status r = SysExit 1
  ∧ files_after r !! "report.txt" = None
  ∧ stdout r = ["Error: File 'clusters.tsv' not found."].
Proof.
  pose proof (C6_unreadable_input_stops_before_output
    (calm "other.tsv" (row "A" "A")) "clusters.tsv" "report.txt"
    (or_introl eq_refl)) as (Hs & _ & _ & Hf & Hmissing & _).
  split; [exact Hs|]. split; [exact Hf|].
  exact (proj1 (Hmissing eq_refl)).
Defined.




(** ** Further properties of the script *)

(** *** The dictionary *)

Lemma dict_get_append_eq d k m :
  dict_get (dict_append d k m) k = Some (default [] (dict_get d k) ++ [m]).
Proof.
  induction d as [|[k' ms] d IH]; simpl.
  - by rewrite decide_True.
  - destruct (decide (k' = k)) as [->|Hne]; simpl.
    + by rewrite decide_True.
    + by rewrite decide_False.
Qed.

Lemma dict_get_append_ne d k k' m :
  k' ≠ k → dict_get (dict_append d k m) k' = dict_get d k'.
Proof.
  intros Hne. induction d as [|[k0 ms] d IH]; simpl.
  - by rewrite decide_False.
  - destruct (decide (k0 = k)) as [->|Hk]; simpl.
    + by rewrite !decide_False by done.
    + by rewrite IH.
Qed.

Lemma dict_append_keys_list d k m :
  (dict_append d k m).*1 = if decide (k ∈ d.*1) then d.*1 else d.*1 ++ [k].
Proof.
  induction d as [|[k' ms] d IH].
  - destruct (decide (k ∈ ([] : dict).*1)) as [Hin|_]; [|done].
    by apply elem_of_nil in Hin.
  - change (((k', ms) :: d).*1) with (k' :: d.*1).
    change (dict_append ((k', ms) :: d) k m)
      with (if decide (k' = k) then (k', ms ++ [m]) :: d
            else (k', ms) :: dict_append d k m).
    destruct (decide (k' = k)) as [->|Hne].
    + rewrite decide_True; [done|]. by left.
    + change (((k', ms) :: dict_append d k m).*1)
        with (k' :: (dict_append d k m).*1).
      rewrite IH. destruct (decide (k ∈ d.*1)) as [Hin|Hnin].
      * rewrite decide_True; [done|]. by right.
      * rewrite decide_False; [done|].
        intros [?|?]%elem_of_cons; congruence.
Qed.

Lemma dict_append_NoDup d k m :
  NoDup d.*1 → NoDup (dict_append d k m).*1.
Proof.
  intros Hd. rewrite dict_append_keys_list.
  destruct (decide (k ∈ d.*1)); [done|].
  apply NoDup_app. split; [done|]. split; [|apply NoDup_singleton].
  intros x Hx ->%list_elem_of_singleton. done.
Qed.

Lemma dict_get_elem d k ms :
  NoDup d.*1 → (k, ms) ∈ d ↔ dict_get d k = Some ms.
Proof.
  induction d as [|[k' ms'] d IH]; simpl; intros Hd.
  - split; [by intros ?%elem_of_nil|done].
  - apply NoDup_cons in Hd as [Hk' Hd].
    destruct (decide (k' = k)) as [->|Hne].
    + split.
      * intros [[= ->]|Hin]%elem_of_cons; [done|].
        destruct Hk'. apply list_elem_of_fmap. by exists (k, ms).
      * intros [= ->]. by left.
    + rewrite <-(IH Hd). split.
      * intros [[= ? ?]|Hin]%elem_of_cons; [congruence|done].
      * intros Hin. by right.
Qed.

(** *** The reading loop, by records and warnings *)

Lemma read_line_cases st line :
  read_line st line =
  match record_of line with
  | Some r => (dict_append st.1 r.1 r.2, st.2)
  | None => if is_malformed line
            then (st.1, st.2 ++ [warning (strip line)]) else st
  end.
Proof.
  unfold read_line, record_of, is_malformed.
  destruct (decide (strip line = "")) as [He|Hne].
  - by rewrite bool_decide_eq_false_2 by (by intros H).
  - rewrite (bool_decide_eq_true_2 _ Hne).
    by destruct (split "009" (strip line)) as [|f1 [|f2 fs]].
Qed.

Lemma foldl_read_line_records lines st :
  (foldl read_line st lines).1
  = foldl (λ d r, dict_append d r.1 r.2) st.1 (records lines).
Proof.
  revert st. induction lines as [|l lines IH]; intros st; [done|].
  simpl. rewrite IH, read_line_cases. unfold records. simpl.
  destruct (record_of l) as [r|]; simpl; [done|].
  by destruct (is_malformed l).
Qed.


Lemma group_get rs d k :
  dict_get (foldl (λ d r, dict_append d r.1 r.2) d rs) k
  = match members_of k rs with
    | [] => dict_get d k
    | ms => Some (default [] (dict_get d k) ++ ms)
    end.
Proof.
  revert d. induction rs as [|[r m] rs IH]; intros d; [done|].
  simpl. rewrite IH. unfold members_of.
  destruct (decide (r = k)) as [->|Hne].
  - rewrite filter_cons_True by done. rewrite fmap_cons.
    rewrite dict_get_append_eq. simpl.
    destruct ((filter (λ r, r.1 = k) rs).*2); [done|].
    by rewrite <-app_assoc.
  - rewrite filter_cons_False by done.
    by rewrite dict_get_append_ne.
Qed.

Lemma group_NoDup rs d :
  NoDup d.*1 → NoDup (foldl (λ d r, dict_append d r.1 r.2) d rs).*1.
Proof.
  revert d. induction rs as [|r rs IH]; intros d Hd; [done|].
  simpl. by apply IH, dict_append_NoDup.
Qed.

Lemma read_lines_NoDup lines : NoDup (read_lines lines).1.*1.
Proof.
  unfold read_lines. rewrite foldl_read_line_records.
  apply group_NoDup. constructor.
Qed.

Lemma read_lines_get lines k :
  dict_get (read_lines lines).1 k
  = match members_of k (records lines) with
    | [] => None
    | ms => Some ms
    end.
Proof.
  unfold read_lines. rewrite foldl_read_line_records, group_get. done.
Qed.

Lemma total_sequences_append d k m :
  total_sequences (dict_append d k m) = S (total_sequences d).
Proof.
  unfold total_sequences. induction d as [|[k' ms] d IH]; csimpl; [done|].
  destruct (decide (k' = k)); csimpl.
  - rewrite length_app. simpl. lia.
  - rewrite IH. lia.
Qed.

Lemma total_sequences_group rs d :
  total_sequences (foldl (λ d r, dict_append d r.1 r.2) d rs)
  = total_sequences d + length rs.
Proof.
  revert d. induction rs as [|r rs IH]; intros d; simpl; [lia|].
  rewrite IH, total_sequences_append. lia.
Qed.

Lemma total_sequences_perm d1 d2 :
  d1 ≡ₚ d2 → total_sequences d1 = total_sequences d2.
Proof. intros H. unfold total_sequences. by rewrite H. Qed.

Lemma dict_get_is_Some d k : k ∈ d.*1 ↔ is_Some (dict_get d k).
Proof.
  induction d as [|[k' ms] d IH]; simpl.
  - split; [by intros ?%elem_of_nil|by intros [? ?]].
  - destruct (decide (k' = k)) as [->|Hne].
    + split; [by eauto|by left].
    + rewrite <-IH. split.
      * intros [?|?]%elem_of_cons; [congruence|done].
      * intros ?. by right.
Qed.

Lemma members_of_nil k rs : members_of k rs = [] ↔ k ∉ rs.*1.
Proof.
  unfold members_of. induction rs as [|[r m] rs IH].
  - split; [by intros _ ?%elem_of_nil|done].
  - rewrite fmap_cons, not_elem_of_cons. simpl.
    destruct (decide (r = k)) as [->|Hne].
    + rewrite filter_cons_True by done. rewrite fmap_cons.
      split; [done|]. by intros [? _].
    + rewrite filter_cons_False by done. rewrite IH.
      split; [by intros ?|by intros [_ ?]].
Qed.

Lemma read_lines_elem lines k ms :
  (k, ms) ∈ (read_lines lines).1
  ↔ ms ≠ [] ∧ ms = members_of k (records lines).
Proof.
  rewrite (dict_get_elem _ _ _ (read_lines_NoDup lines)), read_lines_get.
  destruct (members_of k (records lines)) as [|m l].
  - split; [done|]. by intros [? ->].
  - split; [by intros [= <-]|]. by intros [_ ->].
Qed.

Lemma read_lines_keys_elem lines k :
  k ∈ (read_lines lines).1.*1 ↔ k ∈ (records lines).*1.
Proof.
  rewrite dict_get_is_Some, read_lines_get.
  pose proof (members_of_nil k (records lines)) as H.
  destruct (members_of k (records lines)) as [|m ms].
  - split; [by intros [? ?]|]. intros Hin. by apply H in Hin.
  - split; [|by eauto]. intros _.
    destruct (decide (k ∈ (records lines).*1)) as [|Hn]; [done|].
    by apply H in Hn.
Qed.

Lemma members_of_NoDup k rs : NoDup rs → NoDup (members_of k rs).
Proof.
  intros Hrs. unfold members_of. apply NoDup_fmap_2_strong.
  - intros [r1 m1] [r2 m2] [H1 _]%list_elem_of_filter [H2 _]%list_elem_of_filter.
    simpl in *. congruence.
  - by apply NoDup_filter.
Qed.

Lemma all_members_nonempty ms : ms ≠ [] → (1 ≤ length (all_members_of ms))%nat.
Proof.
  destruct ms as [|m ms]; [done|]. intros _.
  assert (m ∈ all_members_of (m :: ms)) as H by (apply all_members_elem; by left).
  destruct (all_members_of (m :: ms)); [by apply elem_of_nil in H|simpl; lia].
Qed.

(** X1: [clusters[k].append(m)] on the dictionary.  Afterwards the list of
    [k] is its old list, or the empty list when [k] was missing, with [m] at
    the end; the list of every other key is as before; and the keys stay
    pairwise distinct. *)
Theorem dict_append_then_get d k k' m :
  dict_get (dict_append d k m) k = Some (default [] (dict_get d k) ++ [m])
  ∧ (k' ≠ k → dict_get (dict_append d k m) k' = dict_get d k')
  ∧ (NoDup d.*1 → NoDup (dict_append d k m).*1).
Proof.
  split; [apply dict_get_append_eq|].
  split; [apply dict_get_append_ne|apply dict_append_NoDup].
Qed.

(** X2: the clusters the reading loop builds are exactly these: one for
    each representative that has a record, holding the members of its
    records in input order, repeats included. *)
Theorem clusters_group_the_records lines k ms :
  (k, ms) ∈ (read_lines lines).1
  ↔ ms ≠ [] ∧ ms = (filter (λ r, r.1 = k) (omap record_of lines)).*2.
Proof. apply read_lines_elem. Qed.

(** X3: in the sorted clusters of any input no representative occurs
    twice, so each has one line in the report, and every line reports a
    size of at least 1. *)
Theorem report_lines_one_per_representative lines :
  let sorted_clusters := sort_clusters (read_lines lines).1 in
  NoDup sorted_clusters.*1
  ∧ Forall (λ x, (1 ≤ length (all_members_of x.2))%nat) sorted_clusters
  ∧ length (cluster_lines 1 sorted_clusters) = length (read_lines lines).1.
Proof.
  simpl. split; [|split].
  - rewrite (sort_clusters_perm (read_lines lines).1). apply read_lines_NoDup.
  - rewrite (sort_clusters_perm (read_lines lines).1).
    apply Forall_forall. intros [k ms] [Hne _]%read_lines_elem.
    by apply all_members_nonempty.
  - rewrite <-(Permutation_length (sort_clusters_perm (read_lines lines).1)).
    generalize 1. induction (sort_clusters (read_lines lines).1) as [|[r ms] s IH];
      intros n; simpl; [done|]. by rewrite IH.
Qed.

(** X4: the "Total clusters" figure of the header, and the cluster count
    of the summary, is the number of distinct representatives among the
    records of the input. *)
Theorem total_clusters_counts_representatives lines :
  let sorted_clusters := sort_clusters (read_lines lines).1 in
  let n := length (remove_dups (records lines).*1) in
  header sorted_clusters !! 1 = Some ("# Total clusters: " +:+ str n +:+ NL)
  ∧ summary_head sorted_clusters !! 0
    = Some ("Successfully processed " +:+ str n +:+ " clusters").
Proof.
  simpl.
  assert (length (sort_clusters (read_lines lines).1)
          = length (remove_dups (records lines).*1)) as ->; [|done].
  rewrite (Permutation_length (sort_clusters_perm (read_lines lines).1)).
  rewrite <-(length_fmap fst).
  apply Permutation_length, NoDup_Permutation.
  - apply read_lines_NoDup.
  - apply NoDup_remove_dups.
  - intros k. by rewrite read_lines_keys_elem, elem_of_remove_dups.
Qed.

(** X5: the "Total sequences" figure of the header and of the summary is
    the number of records read: every line that gave a record counts once,
    repeats included. *)
Theorem total_sequences_counts_records lines :
  let sorted_clusters := sort_clusters (read_lines lines).1 in
  let n := length (records lines) in
  header sorted_clusters !! 2 = Some ("# Total sequences: " +:+ str n +:+ NL)
  ∧ summary_head sorted_clusters !! 1 = Some ("Total sequences: " +:+ str n).
Proof.
  simpl.
  assert (total_sequences (sort_clusters (read_lines lines).1)
          = length (records lines)) as ->; [|done].
  rewrite (total_sequences_perm _ _ (sort_clusters_perm (read_lines lines).1)).
  unfold read_lines. rewrite foldl_read_line_records.
  by rewrite total_sequences_group.
Qed.

(** X6: the sizes on the cluster lines add up to at most the number of
    records, the header total; and to exactly that number when no record
    occurs twice in the input. *)
Theorem sizes_add_up_to_records_without_repeats lines :
  let sorted_clusters := sort_clusters (read_lines lines).1 in
  let sizes := (λ x, length (all_members_of x.2)) <$> sorted_clusters in
  (sum_list sizes ≤ length (records lines))%nat
  ∧ (NoDup (records lines) → sum_list sizes = length (records lines)).
Proof.
  simpl.
  assert (total_sequences (sort_clusters (read_lines lines).1)
          = length (records lines)) as <-.
  { rewrite (total_sequences_perm _ _ (sort_clusters_perm (read_lines lines).1)).
    unfold read_lines. rewrite foldl_read_line_records.
    by rewrite total_sequences_group. }
  split; [apply reported_sizes_le_total|].
  intros Hnd. apply reported_sizes_eq_total.
  rewrite (sort_clusters_perm (read_lines lines).1).
  apply Forall_forall. intros [k ms] [_ ->]%read_lines_elem.
  by apply members_of_NoDup.
Qed.

(** X7: sorting keeps every cluster, once, and puts a cluster with more
    raw members before one with fewer, and among clusters of equal raw
    length the one with the smaller representative first. *)
Theorem sorted_clusters_same_clusters_in_order clusters :
  sort_clusters clusters ≡ₚ clusters
  ∧ StronglySorted
      (λ x y, length y.2 < length x.2
              ∨ (length x.2 = length y.2 ∧ String.le x.1 y.1))
      (sort_clusters clusters).
Proof. split; [apply sort_clusters_perm|apply sort_clusters_sorted]. Qed.

(** X8: the figure the summary prints as "Largest cluster size" is the
    greatest raw member count of all clusters: no cluster has more raw
    members than the first of the sorted order. *)
Theorem largest_is_greatest_raw_count clusters x :
  x ∈ clusters →
  largest_cluster_size (sort_clusters clusters)
  = Some (first_raw_size (sort_clusters clusters))
  ∧ (length x.2 ≤ first_raw_size (sort_clusters clusters))%nat
  ∧ ∃ y, y ∈ clusters ∧ length y.2 = first_raw_size (sort_clusters clusters).
Proof.
  intros Hx. split; [apply largest_cluster_size_total|].
  pose proof (sort_clusters_sorted clusters) as Hs.
  pose proof (sort_clusters_perm clusters) as Hp.
  rewrite <-Hp in Hx.
  destruct (sort_clusters clusters) as [|[r ms] s]; [by apply elem_of_nil in Hx|].
  simpl. split.
  - apply StronglySorted_inv in Hs as [_ Hall].
    apply elem_of_cons in Hx as [->|Hin]; [done|].
    rewrite Forall_forall in Hall. specialize (Hall _ Hin).
    unfold before in Hall. simpl in Hall. lia.
  - exists (r, ms). split; [|done]. rewrite <-Hp. by left.
Qed.

Lemma largest_is_greatest_raw_count_witness :
  (length ("A", ["x"]).2
   ≤ first_raw_size (sort_clusters [("A", ["x"]); ("B", ["y"; "z"])]))%nat.
Proof.
  refine (proj1 (proj2 (largest_is_greatest_raw_count
            [("A", ["x"]); ("B", ["y"; "z"])] ("A", ["x"]) _))).
  by left.
Defined.


(** *** Stripping, splitting and joining *)

Lemma read_line_strip st l1 l2 :
  strip l1 = strip l2 → read_line st l1 = read_line st l2.
Proof. intros H. unfold read_line. by rewrite H. Qed.

Lemma String_length_lstrip s : (String.length (lstrip s) ≤ String.length s)%nat.
Proof.
  induction s as [|c s IH]; simpl; [done|].
  destruct (is_space c); simpl; lia.
Qed.

Lemma lstrip_fixed_head c s : lstrip (String c s) = String c s → is_space c = false.
Proof.
  simpl. destruct (is_space c); [|done]. intros H.
  pose proof (String_length_lstrip s) as Hl. rewrite H in Hl. simpl in Hl. lia.
Qed.

Lemma app_nonempty_r a b : b ≠ "" → a +:+ b ≠ "".
Proof. destruct a; [done|]. by rewrite app_cons. Qed.

Lemma rstrip_app_nonblank a b : rstrip b ≠ "" → rstrip (a +:+ b) = a +:+ rstrip b.
Proof.
  intros Hb. induction a as [|c a IH]; [done|].
  rewrite !app_cons. simpl. rewrite IH.
  pose proof (app_nonempty_r a (rstrip b) Hb) as Hne.
  by destruct (a +:+ rstrip b).
Qed.

Lemma split_app sep a b :
  has_char sep a = false →
  split sep (a +:+ String sep b) = a :: split sep b.
Proof.
  induction a as [|c a IH]; intros H.
  - change ("" +:+ String sep b) with (String sep b). simpl.
    by rewrite decide_True.
  - simpl in H. apply orb_false_iff in H as [Hc Ha].
    apply bool_decide_eq_false in Hc.
    rewrite app_cons. simpl. rewrite decide_False by done. by rewrite (IH Ha).
Qed.

Lemma split_join sep l :
  l ≠ [] → Forall (λ x, has_char sep x = false) l →
  split sep (join (String sep "") l) = l.
Proof.
  intros Hne Hl. induction Hl as [|x l Hx Hl IH]; [done|].
  destruct l as [|y l].
  - simpl. by apply split_no_sep.
  - change (join (String sep "") (x :: y :: l))
      with (x +:+ String sep "" +:+ join (String sep "") (y :: l)).
    change (String sep "" +:+ join (String sep "") (y :: l))
      with (String sep (join (String sep "") (y :: l))).
    rewrite split_app by done. by rewrite IH.
Qed.

(** X10: white space around a line never matters to the loop: with blank
    text before and after it (spaces, tabs, a carriage return, the line
    feed) a line is read as without. *)
Theorem outer_white_space_is_ignored st before_line line after_line :
  lstrip before_line = "" → lstrip after_line = "" →
  read_line st (before_line +:+ line +:+ after_line) = read_line st line.
Proof. intros Ha Hb. by apply read_line_strip, strip_pad. Qed.

Lemma outer_white_space_is_ignored_witness :
  read_line ([], []) ("  " +:+ ("A" +:+ TAB +:+ "B") +:+ (String "013"%char NL))
  = read_line ([], []) ("A" +:+ TAB +:+ "B").
Proof.
  apply (outer_white_space_is_ignored ([], []) "  " ("A" +:+ TAB +:+ "B")
           (String "013"%char NL)); reflexivity.
Defined.

(** X11: a row as the upstream tool writes it is read back as its record.
    When neither identifier holds a tab, the representative is not empty
    and does not start with white space, and the member is not empty and
    does not end with white space, the line [representative<TAB>member]
    with its line feed adds [member] to the cluster of [representative]
    and prints nothing. *)
Theorem row_is_read_as_its_record st representative member :
  has_char "009" representative = false → has_char "009" member = false →
  representative ≠ "" → lstrip representative = representative →
  member ≠ "" → rstrip member = member →
  read_line st (row representative member)
  = (dict_append st.1 representative member, st.2)
  ∧ record_of (row representative member) = Some (representative, member).
Proof.
  intros Hr Hm Hrne Hrl Hmne Hmr.
  assert (strip (row representative member)
          = representative +:+ String "009" member) as Hs.
  { unfold row.
    change (representative +:+ TAB +:+ member +:+ NL)
      with (representative +:+ String "009" (member +:+ NL)).
    destruct representative as [|c r]; [done|].
    apply lstrip_fixed_head in Hrl.
    unfold strip. rewrite app_cons. simpl lstrip. rewrite Hrl.
    rewrite <-app_cons.
    rewrite rstrip_app_nonblank.
    - f_equal. change (String "009" (member +:+ NL)) with (TAB +:+ member +:+ NL).
      rewrite rstrip_app_nonblank.
      + by rewrite rstrip_app_blank, Hmr.
      + by rewrite rstrip_app_blank, Hmr.
    - change (String "009" (member +:+ NL)) with (TAB +:+ member +:+ NL).
      rewrite rstrip_app_nonblank; [|by rewrite rstrip_app_blank, Hmr].
      apply app_nonempty_r. by rewrite rstrip_app_blank, Hmr. }
  assert (split "009" (strip (row representative member))
          = [representative; member]) as Hf.
  { rewrite Hs, split_app by done. by rewrite split_no_sep. }
  assert (strip (row representative member) ≠ "") as Hne.
  { rewrite Hs. by apply app_nonempty_r. }
  split.
  - by apply (read_line_record _ _ _ _ [] Hne).
  - unfold record_of. rewrite decide_False by done. by rewrite Hf.
Qed.

Lemma row_is_read_as_its_record_witness :
  read_line ([("seq1", ["seq1"])], []) (row "seq1" "seq 2")
  = ([("seq1", ["seq1"; "seq 2"])], []).
Proof.
  refine (proj1 (row_is_read_as_its_record ([("seq1", ["seq1"])], [])
            "seq1" "seq 2" _ _ _ _ _ _)); (reflexivity || discriminate).
Defined.

(** X12: the members column of a cluster line can be split back: when no
    member of a group holds a comma, splitting the comma-joined text on
    commas gives back the distinct members in their order. *)
Theorem members_column_splits_back members :
  members ≠ [] → Forall (λ m, has_char "," m = false) members →
  split "," (join "," (all_members_of members)) = all_members_of members.
Proof.
  intros Hne Hc. apply split_join.
  - pose proof (all_members_nonempty members Hne) as H.
    destruct (all_members_of members); [simpl in H; lia|done].
  - apply Forall_forall. intros m Hm.
    apply (proj1 (all_members_elem _ _)) in Hm.
    rewrite Forall_forall in Hc. by apply Hc.
Qed.

Lemma members_column_splits_back_witness :
  split "," (join "," (all_members_of ["B"; "A"; "B"])) = ["A"; "B"].
Proof.
  refine (members_column_splits_back ["B"; "A"; "B"] _ _).
  - discriminate.
  - repeat constructor.
Defined.

(** *** The report as a function of what it shows *)

Lemma shown_perm k ms1 ms2 : ms1 ≡ₚ ms2 → shown (k, ms1) = shown (k, ms2).
Proof.
  intros H. unfold shown, all_members_of. simpl.
  assert (list_to_set ms1 =@{gset string} list_to_set ms2) as ->
    by by apply list_to_set_perm_L.
  by rewrite (Permutation_length H).
Qed.

Lemma shown_keys d : (λ c : string * nat * list string, c.1.1) <$> (shown <$> d) = d.*1.
Proof. induction d as [|x d IH]; [done|]. csimpl. by rewrite IH. Qed.

Lemma NoDup_fmap_inj_on {A B} (f : A → B) l x y :
  NoDup (f <$> l) → x ∈ l → y ∈ l → f x = f y → x = y.
Proof.
  induction l as [|a l IH]; intros Hnd Hx Hy Hf; [by apply elem_of_nil in Hx|].
  rewrite fmap_cons in Hnd. apply NoDup_cons in Hnd as [Ha Hnd].
  apply elem_of_cons in Hx as [->|Hx]; apply elem_of_cons in Hy as [->|Hy].
  - done.
  - destruct Ha. rewrite Hf. by apply list_elem_of_fmap_2.
  - destruct Ha. rewrite <-Hf. by apply list_elem_of_fmap_2.
  - by apply IH.
Qed.

Lemma cluster_lines_shown n s1 s2 :
  shown <$> s1 = shown <$> s2 → cluster_lines n s1 = cluster_lines n s2.
Proof.
  revert n s2. induction s1 as [|[r1 ms1] s1 IH]; intros n [|[r2 ms2] s2] H;
    try done.
  rewrite !fmap_cons in H. injection H as Hr Hl Ha Hs. simpl in *.
  subst r2. unfold cluster_line. rewrite Ha. f_equal. by apply IH.
Qed.

Lemma total_sequences_shown s :
  total_sequences s = sum_list ((λ c : string * nat * list string, c.1.2) <$> (shown <$> s)).
Proof.
  unfold total_sequences. induction s as [|x s IH]; [done|]. csimpl.
  by rewrite IH.
Qed.

Lemma first_raw_size_shown s :
  first_raw_size s
  = match shown <$> s with [] => 0 | c :: _ => c.1.2 end.
Proof. by destruct s as [|[r ms] s]. Qed.

Lemma report_from_shown s1 s2 :
  shown <$> s1 = shown <$> s2 →
  report_chunks s1 = report_chunks s2
  ∧ summary_head s1 = summary_head s2
  ∧ first_raw_size s1 = first_raw_size s2.
Proof.
  intros H.
  assert (length s1 = length s2) as Hlen
    by by rewrite <-(length_fmap shown s1), H, length_fmap.
  assert (total_sequences s1 = total_sequences s2) as Htot
    by by rewrite !total_sequences_shown, H.
  unfold report_chunks, header, summary_head.
  rewrite Hlen, Htot, (cluster_lines_shown 1 s1 s2 H).
  by rewrite !first_raw_size_shown, H.
Qed.

Lemma read_lines_shown_incl lines1 lines2 c :
  lines1 ≡ₚ lines2 →
  c ∈ shown <$> (read_lines lines1).1 → c ∈ shown <$> (read_lines lines2).1.
Proof.
  intros Hp Hc. apply list_elem_of_fmap in Hc as ([k ms] & -> & Hin).
  apply read_lines_elem in Hin as [Hne ->].
  assert (members_of k (records lines1) ≡ₚ members_of k (records lines2)) as Hm.
  { unfold members_of, records. by rewrite Hp. }
  rewrite (shown_perm k _ _ Hm). apply list_elem_of_fmap_2.
  apply read_lines_elem. split; [|done].
  intros Hnil. rewrite Hnil in Hm. by apply Permutation_nil_r in Hm.
Qed.

Lemma read_lines_shown_NoDup lines : NoDup (shown <$> (read_lines lines).1).
Proof.
  apply (NoDup_fmap_1 (λ c : string * nat * list string, c.1.1)).
  rewrite shown_keys. apply read_lines_NoDup.
Qed.

Lemma read_lines_shown_perm lines1 lines2 :
  lines1 ≡ₚ lines2 →
  shown <$> (read_lines lines1).1 ≡ₚ shown <$> (read_lines lines2).1.
Proof.
  intros Hp. apply NoDup_Permutation; [apply read_lines_shown_NoDup..|].
  intros c. split; by apply read_lines_shown_incl.
Qed.

Lemma sort_shown_sorted d :
  StronglySorted shown_before (shown <$> sort_clusters d).
Proof.
  eapply StronglySorted_fmap; [|apply sort_clusters_sorted].
  by intros x y H.
Qed.

(** X13: the order of the input lines does not matter to the report.  Two
    inputs with the same lines in a different order give the same chunks
    to write, the same summary counts and the same "Largest cluster size". *)
Theorem line_order_does_not_change_report lines1 lines2 :
  lines1 ≡ₚ lines2 →
  let s1 := sort_clusters (read_lines lines1).1 in
  let s2 := sort_clusters (read_lines lines2).1 in
  report_chunks s1 = report_chunks s2
  ∧ summary_head s1 = summary_head s2
  ∧ largest_cluster_size s1 = largest_cluster_size s2.
Proof.
  intros Hp s1 s2.
  assert (shown <$> s1 = shown <$> s2) as Heq.
  { assert (shown <$> s1 ≡ₚ shown <$> s2) as Hperm.
    { subst s1 s2.
      rewrite (sort_clusters_perm (read_lines lines1).1).
      rewrite (sort_clusters_perm (read_lines lines2).1).
      by apply read_lines_shown_perm. }
    apply (StronglySorted_unique_strong shown_before);
      [|apply sort_shown_sorted..|done].
    intros x1 x2 H1 H2 H12 H21. rewrite <-Hperm in H2.
    apply (NoDup_fmap_inj_on (λ c : string * nat * list string, c.1.1)
             (shown <$> s1)); [|done..|].
    - rewrite shown_keys. subst s1.
      rewrite (sort_clusters_perm (read_lines lines1).1).
      apply read_lines_NoDup.
    - unfold shown_before in *.
      destruct H12 as [?|[? Hle1]], H21 as [?|[? Hle2]]; try lia.
      by apply (anti_symm String.le). }
  destruct (report_from_shown s1 s2 Heq) as (Hr & Hs & Hf).
  by rewrite !largest_cluster_size_total, Hf.
Qed.

Lemma line_order_does_not_change_report_witness :
  report_chunks (sort_clusters (read_lines [row "B" "y"; row "A" "x"]).1)
  = report_chunks (sort_clusters (read_lines [row "A" "x"; row "B" "y"]).1).
Proof.
  refine (proj1 (line_order_does_not_change_report
            [row "B" "y"; row "A" "x"] [row "A" "x"; row "B" "y"] _)).
  apply Permutation_swap.
Defined.



Lemma split_nonempty sep s : split sep s ≠ [].
Proof.
  destruct s as [|c s]; simpl; [done|].
  destruct (decide (c = sep)); [done|]. by destruct (split sep s).
Qed.

Lemma join_split sep s : join (String sep "") (split sep s) = s.
Proof.
  induction s as [|c s IH]; simpl; [done|].
  pose proof (split_nonempty sep s) as Hne.
  destruct (decide (c = sep)) as [->|Hc].
  - destruct (split sep s) as [|f fs]; [done|].
    change (join (String sep "") ("" :: f :: fs))
      with (String sep (join (String sep "") (f :: fs))).
    by rewrite IH.
  - destruct (split sep s) as [|f [|g fs]]; [done|..].
    + simpl in *. by rewrite IH.
    + change (join (String sep "") (String c f :: g :: fs))
        with (String c (join (String sep "") (f :: g :: fs))).
      by rewrite IH.
Qed.

Lemma split_fields_no_sep sep s :
  Forall (λ f, has_char sep f = false) (split sep s).
Proof.
  induction s as [|c s IH]; simpl; [by repeat constructor|].
  destruct (decide (c = sep)) as [->|Hc]; [by constructor|].
  pose proof (split_nonempty sep s) as Hne.
  destruct (split sep s) as [|f fs]; [done|].
  apply Forall_cons in IH as [Hf Hfs]. constructor; [|done].
  simpl. by rewrite Hf, bool_decide_eq_false_2.
Qed.

(** X16: the record of a line is made of its first two columns.  When a
    line gives the record (representative, member), the stripped line is
    these two texts and possibly further columns, joined by tabs; neither
    text holds a tab, and the representative is not empty.  Columns past
    the second are dropped. *)
Theorem record_is_first_two_columns line representative member :
  record_of line = Some (representative, member) →
  (∃ columns, strip line = join TAB (representative :: member :: columns))
  ∧ has_char "009" representative = false
  ∧ has_char "009" member = false
  ∧ representative ≠ ""
  ∧ ∀ st, read_line st line = (dict_append st.1 representative member, st.2).
Proof.
  unfold record_of. intros H.
  destruct (decide (strip line = "")) as [|Hne]; [done|].
  destruct (split "009" (strip line)) as [|r [|m columns]] eqn:Hs; try done.
  injection H as -> ->.
  pose proof (split_fields_no_sep "009" (strip line)) as Hf.
  rewrite Hs in Hf. apply Forall_cons in Hf as [Hr Hf].
  apply Forall_cons in Hf as [Hm _].
  split; [|split; [done|split; [done|split]]].
  - exists columns. rewrite <-Hs. symmetry. apply (join_split "009").
  - by eapply record_representative_nonempty.
  - intros st. by eapply read_line_record.
Qed.

Lemma record_is_first_two_columns_witness :
  has_char "009" "A" = false ∧ has_char "009" "B" = false.
Proof.
  pose proof (record_is_first_two_columns
    ("A" +:+ TAB +:+ "B" +:+ TAB +:+ "0.93" +:+ NL) "A" "B" eq_refl)
    as (_ & Hr & Hm & _).
  exact (conj Hr Hm).
Defined.
